(** * Resource discovery registry of the Google provider (google/resources.go)

    A shallow embedding of [initializeFilter], of the twenty-one fetch
    functions bound in the [resources] table, and of the table itself,
    followed by the properties of the discovery registry that hold (or
    fail) on them.

    Conventions of the embedding:
    - a Go [string] is a [string] (a sequence of bytes);
    - a Go slice is a [list]; the [nil] slice and the empty slice are both
      [[]] (the code only ranges over slices and takes their [len]);
    - a Go [map[string][]T] is a [gmap string (list T)]; ranging over it
      visits every entry once, in an order the language leaves unspecified
      and which may change from one loop to the next, so the order is an
      answer of the runtime (see [RangeMap] and [runtime]);
    - a Go [error] is an [option error], [None] being the [nil] error, and a
      function returning [(v, err)] returns a pair;
    - a call of a method of the reader [g.gcpr] is an event [Invoke]
      answered by the environment, so that the calls made are observable;
    - [ctx context.Context] is only handed on to the reader and is left out.
*)

From Stdlib Require Import Ascii.
From stdpp Require Import base strings list gmap fin_maps.


(** ** Errors (github.com/pkg/errors) *)

(** An error is either a value produced outside of this package or the
    result of [errors.Wrap]; the recorded stack is not modelled. *)
Inductive error : Type :=
| Upstream (msg : string)
| withMessage (cause : error) (msg : string).

(** [Error()] of a wrapped error is [msg + ": " + cause.Error()]. *)
Fixpoint Error (e : error) : string :=
  match e with
  | Upstream msg => msg
  | withMessage cause msg => msg +:+ ": " +:+ Error cause
  end.

(** [errors.Wrap(err, message)]: [nil] when [err] is [nil]. *)
Definition Wrap (err : option error) (message : string) : option error :=
  match err with
  | None => None
  | Some e => Some (withMessage e message)
  end.

(** The outermost context message of an error, if it was wrapped. *)
Definition context_of (e : error) : option string :=
  match e with
  | Upstream _ => None
  | withMessage _ msg => Some msg
  end.

(** ** ResourceType *)

Inductive ResourceType : Type :=
| ComputeInstance
| ComputeFirewall
| ComputeNetwork
| ComputeHealthCheck
| ComputeInstanceGroup
| ComputeInstanceIAMPolicy
| ComputeBackendBucket
| ComputeBackendService
| ComputeSSLCertificate
| ComputeTargetHTTPProxy
| ComputeTargetHTTPSProxy
| ComputeURLMap
| ComputeGlobalForwardingRule
| ComputeForwardingRule
| ComputeDisk
| DNSManagedZone
| DNSRecordSet
| ProjectIAMCustomRole
| StorageBucket
| StorageBucketIAMPolicy
| SQLDatabaseInstance.

Definition noFilter : string := "".

(** ** Types of the packages [filter] and [provider], and of the provider *)

(** Modelled from the spec: the package [filter] is not part of the unit;
    a FilterSpec is a collection of (name, value) tag predicates, iterated
    in the order of the slice [Tags]. *)
Record Tag : Type := { tagName : string; tagValue : string }.

Record Filter : Type := { Tags : list Tag }.

(** Modelled from the spec: the struct [google] and its reader are declared
    elsewhere; [Project] is what the method [g.Project()] returns and
    [gcpr_project] is the field [g.gcpr.project]. *)
Record google : Type := { Project : string; gcpr_project : string }.

(** Modelled from the spec: [provider.Resource] and [provider.NewResource]
    belong to the package [provider]; a resource handle carries the
    synthesized identifier (returned by [ID()]), the resource type it was
    asked for, and a reference to the provider. *)
Record Resource : Type :=
  NewResource { ID : string; Type_ : string; Provider : google }.

(** The items of the upstream listings: the code reads their [Name], and
    for resource record sets also their [Type]. *)
Record Item : Type := { Name : string }.

Record ResourceRecordSet : Type := { rrName : string; rrType : string }.

(** ** The Filter Compiler *)

(** [fmt.Sprintf("(labels.%s=%s) ", t.Name, t.Value)] *)
Definition Sprintf_label (t : Tag) : string :=
  "(labels." +:+ tagName t +:+ "=" +:+ tagValue t +:+ ") ".

(** The buffer [b] starts empty and every [WriteString] appends to it.
    The pointer [filters] is dereferenced here: it is taken to be non-nil,
    as it is at every call of a fetch function. *)
Definition initializeFilter (filters : Filter) : string :=
  fold_left (fun b t => b +:+ Sprintf_label t) (Tags filters) "".

(** ** The reader and the runtime *)

(** The listing methods of the reader [g.gcpr] that the fetch functions
    call, with their arguments. *)
Inductive Call : Type :=
| ListInstances (f : string)
| ListFirewalls (f : string)
| ListNetworks (f : string)
| ListHealthChecks (f : string)
| ListInstanceGroups (f : string)
| ListBackendServices (f : string)
| ListURLMaps (f : string)
| ListTargetHTTPProxies (f : string)
| ListTargetHTTPSProxies (f : string)
| ListSSLCertificates (f : string)
| ListGlobalForwardingRules (f : string)
| ListForwardingRules (f : string)
| ListDisks (f : string)
| ListBuckets
| ListStorageInstances (f : string)
| ListManagedZones
| ListResourceRecordSets (zones : list string)
| ListBackendBuckets (f : string)
| ListProjectIAMCustomRoles (parent : string).

(** Modelled from the spec: the reader is declared elsewhere. Each method
    returns a listing together with an error: a flat listing is an ordered
    sequence of items (the fetch functions range over it with the item
    alone), a zoned listing maps a scope key to the items under it (they
    range over it with the key and a slice of items). *)
Definition Resp (c : Call) : Type :=
  match c with
  | ListInstances _ | ListInstanceGroups _ | ListDisks _ =>
      (gmap string (list Item) * option error)%type
  | ListResourceRecordSets _ =>
      (gmap string (list ResourceRecordSet) * option error)%type
  | _ => (list Item * option error)%type
  end.

(** A fetch function is a finite tree of interactions: it returns, calls
    the reader and goes on with its answer, or starts ranging over a map
    and goes on with the entries in the order the runtime visits them. *)
Inductive Prog (A : Type) : Type :=
| Ret (a : A)
| Invoke (c : Call) (k : Resp c -> Prog A)
| RangeMap (V : Type) (m : gmap string V) (k : list (string * V) -> Prog A).

Arguments Ret {A} a.
Arguments Invoke {A} c k.
Arguments RangeMap {A V} m k.

Fixpoint Prog_bind_ {A B : Type} (f : A -> Prog B) (p : Prog A) : Prog B :=
  match p with
  | Ret a => f a
  | Invoke c k => Invoke c (fun r => Prog_bind_ f (k r))
  | RangeMap m k => RangeMap m (fun es => Prog_bind_ f (k es))
  end.

#[global] Instance Prog_ret : MRet Prog := @Ret.
#[global] Instance Prog_bind : MBind Prog := @Prog_bind_.

Definition call (c : Call) : Prog (Resp c) := Invoke c Ret.

Definition range {V : Type} (m : gmap string V) : Prog (list (string * V)) :=
  RangeMap m Ret.

(** The environment of one invocation: the answers of the reader and the
    order in which the runtime ranges over a map. *)
Record runtime : Type := {
  reader : forall c : Call, Resp c;
  order : forall V : Type, gmap string V -> list (string * V)
}.

(** The only thing the language promises about ranging over a map: every
    entry is visited exactly once. *)
Definition fair (rt : runtime) : Prop :=
  forall (V : Type) (m : gmap string V), order rt V m ≡ₚ map_to_list m.

(** Running a fetch function: the reader calls made, in order, and the
    value returned. *)
Fixpoint run {A : Type} (rt : runtime) (p : Prog A) : list Call * A :=
  match p with
  | Ret a => ([], a)
  | Invoke c k =>
      let '(calls, a) := run rt (k (reader rt c)) in (c :: calls, a)
  | RangeMap m k => run rt (k (order rt _ m))
  end.

Definition calls_of {A : Type} (rt : runtime) (p : Prog A) : list Call :=
  fst (run rt p).

Definition result_of {A : Type} (rt : runtime) (p : Prog A) : A :=
  snd (run rt p).

(** ** The fetch functions *)

Definition rtFn : Type :=
  google -> string -> Filter -> Prog (list Resource * option error).

Definition computeInstance : rtFn := fun g resourceType filters =>
  let f := initializeFilter filters in
  '(instancesList, err) ← call (ListInstances f);
  if err is Some _ then
    mret ([], Wrap err "unable to list instances from reader")
  else
    entries ← range instancesList;
    mret (fold_left (fun resources '(z, instances) =>
            fold_left (fun resources instance =>
              let r := NewResource
                (Project g +:+ "/" +:+ z +:+ "/" +:+ Name instance)
                resourceType g in
              resources ++ [r]) instances resources) entries [], None).

Definition computeFirewall : rtFn := fun g resourceType filters =>
  '(firewalls, err) ← call (ListFirewalls noFilter);
  if err is Some _ then
    mret ([], Wrap err "unable to list firewalls from reader")
  else
    mret (fold_left (fun resources firewall =>
            let r := NewResource (Name firewall) resourceType g in
            resources ++ [r]) firewalls [], None).

Definition computeNetwork : rtFn := fun g resourceType filters =>
  '(networks, err) ← call (ListNetworks noFilter);
  if err is Some _ then
    mret ([], Wrap err "unable to list networks from reader")
  else
    mret (fold_left (fun resources network =>
            let r := NewResource (Name network) resourceType g in
            resources ++ [r]) networks [], None).

Definition computeHealthCheck : rtFn := fun g resourceType filters =>
  '(checks, err) ← call (ListHealthChecks noFilter);
  if err is Some _ then
    mret ([], Wrap err "unable to list health checks from reader")
  else
    mret (fold_left (fun resources check =>
            let r := NewResource (Name check) resourceType g in
            resources ++ [r]) checks [], None).

Definition computeInstanceGroup : rtFn := fun g resourceType filters =>
  '(instanceGroups, err) ← call (ListInstanceGroups noFilter);
  if err is Some _ then
    mret ([], Wrap err "unable to list instance groups from reader")
  else
    entries ← range instanceGroups;
    mret (fold_left (fun resources '(z, groups) =>
            fold_left (fun resources group =>
              let r := NewResource
                (Project g +:+ "/" +:+ z +:+ "/" +:+ Name group)
                resourceType g in
              resources ++ [r]) groups resources) entries [], None).

Definition computeBackendService : rtFn := fun g resourceType filters =>
  '(backends, err) ← call (ListBackendServices noFilter);
  if err is Some _ then
    mret ([], Wrap err "unable to list backend services from reader")
  else
    mret (fold_left (fun resources backend =>
            let r := NewResource (Name backend) resourceType g in
            resources ++ [r]) backends [], None).

Definition computeURLMap : rtFn := fun g resourceType filters =>
  '(maps, err) ← call (ListURLMaps noFilter);
  if err is Some _ then
    mret ([], Wrap err "unable to list URL maps from reader")
  else
    mret (fold_left (fun resources urlMap =>
            let r := NewResource (Name urlMap) resourceType g in
            resources ++ [r]) maps [], None).

Definition computeTargetHTTPProxy : rtFn := fun g resourceType filters =>
  '(targets, err) ← call (ListTargetHTTPProxies noFilter);
  if err is Some _ then
    mret ([], Wrap err "unable to list target http proxies from reader")
  else
    mret (fold_left (fun resources target =>
            let r := NewResource (Name target) resourceType g in
            resources ++ [r]) targets [], None).

Definition computeTargetHTTPSProxy : rtFn := fun g resourceType filters =>
  '(targets, err) ← call (ListTargetHTTPSProxies noFilter);
  if err is Some _ then
    mret ([], Wrap err "unable to list target https proxies from reader")
  else
    mret (fold_left (fun resources target =>
            let r := NewResource (Name target) resourceType g in
            resources ++ [r]) targets [], None).

Definition computeSSLCertificate : rtFn := fun g resourceType filters =>
  '(certs, err) ← call (ListSSLCertificates noFilter);
  if err is Some _ then
    mret ([], Wrap err "unable to list SSL certificates from reader")
  else
    mret (fold_left (fun resources cert =>
            let r := NewResource (Name cert) resourceType g in
            resources ++ [r]) certs [], None).

Definition computeGlobalForwardingRule : rtFn := fun g resourceType filters =>
  let f := initializeFilter filters in
  '(rules, err) ← call (ListGlobalForwardingRules f);
  if err is Some _ then
    mret ([], Wrap err "unable to list global forwarding rules from reader")
  else
    mret (fold_left (fun resources rule =>
            let r := NewResource (Name rule) resourceType g in
            resources ++ [r]) rules [], None).

Definition computeForwardingRule : rtFn := fun g resourceType filters =>
  let f := initializeFilter filters in
  '(rules, err) ← call (ListForwardingRules f);
  if err is Some _ then
    mret ([], Wrap err "unable to list global forwarding rules from reader")
  else
    mret (fold_left (fun resources rule =>
            let r := NewResource (Name rule) resourceType g in
            resources ++ [r]) rules [], None).

Definition computeDisk : rtFn := fun g resourceType filters =>
  let f := initializeFilter filters in
  '(disksList, err) ← call (ListDisks f);
  if err is Some _ then
    mret ([], Wrap err "unable to list disks from reader")
  else
    entries ← range disksList;
    mret (fold_left (fun resources '(z, disks) =>
            fold_left (fun resources disk =>
              let r := NewResource
                (z +:+ "/" +:+ Name disk)
                resourceType g in
              resources ++ [r]) disks resources) entries [], None).

Definition storageBucket : rtFn := fun g resourceType filters =>
  '(buckets, err) ← call (ListBuckets);
  if err is Some _ then
    mret ([], Wrap err "unable to list global forwarding rules from reader")
  else
    mret (fold_left (fun resources bucket =>
            let r := NewResource (Name bucket) resourceType g in
            resources ++ [r]) buckets [], None).

Definition sqlDatabaseInstance : rtFn := fun g resourceType filters =>
  '(instances, err) ← call (ListStorageInstances noFilter);
  if err is Some _ then
    mret ([], Wrap err "unable to list sql storage instances rules from reader")
  else
    mret (fold_left (fun resources instance =>
            let r := NewResource (Name instance) resourceType g in
            resources ++ [r]) instances [], None).

Definition managedZoneDNS : rtFn := fun g resourceType filters =>
  '(zones, err) ← call (ListManagedZones);
  if err is Some _ then
    mret ([], Wrap err "unable to list DNS managed zone from reader")
  else
    mret (fold_left (fun resources zone =>
            let r := NewResource (Name zone) resourceType g in
            resources ++ [r]) zones [], None).

Definition recordSetDNS : rtFn := fun g resourceType filters =>
  '(managedZones, err) ← managedZoneDNS g resourceType filters;
  if err is Some _ then
    mret ([], Wrap err "unable to previously fetch managed zones")
  else
    let zones :=
      fold_left (fun zones zone => zones ++ [ID zone]) managedZones [] in
    '(rrsetsList, err) ← call (ListResourceRecordSets zones);
    if err is Some _ then
      mret ([], Wrap err
                  "unable to list resources record se record sett from reader")
    else
      entries ← range rrsetsList;
      mret (fold_left (fun resources '(z, rrsets) =>
              fold_left (fun resources rrset =>
                let r := NewResource
                  (z +:+ "/" +:+ rrName rrset +:+ "/" +:+ rrType rrset)
                  resourceType g in
                resources ++ [r]) rrsets resources) entries [], None).

Definition computeBackendBucket : rtFn := fun g resourceType filters =>
  '(backends, err) ← call (ListBackendBuckets noFilter);
  if err is Some _ then
    mret ([], Wrap err "unable to list backend buckets from reader")
  else
    mret (fold_left (fun resources backend =>
            let r := NewResource (Name backend) resourceType g in
            resources ++ [r]) backends [], None).

Definition projectIAMCustomRole : rtFn := fun g resourceType filters =>
  '(roles, err) ← call (ListProjectIAMCustomRoles ("projects/" +:+ gcpr_project g));
  if err is Some _ then
    mret ([], Wrap err "unable to list project IAM custom roles from reader")
  else
    mret (fold_left (fun resources role =>
            let r := NewResource (Name role) resourceType g in
            resources ++ [r]) roles [], None).

Definition storageBucketIAMPolicy : rtFn := fun g resourceType filters =>
  '(buckets, err) ← call (ListBuckets);
  if err is Some _ then
    mret ([], Wrap err "unable to list bucket policies custom roles from reader")
  else
    mret (fold_left (fun resources bucket =>
            let r := NewResource (Name bucket) resourceType g in
            resources ++ [r]) buckets [], None).

Definition computeInstanceIAMPolicy : rtFn := fun g resourceType filters =>
  let f := initializeFilter filters in
  '(list, err) ← call (ListInstances f);
  if err is Some _ then
    mret ([], Wrap err "unable to list compute instances from reader")
  else
    entries ← range list;
    mret (fold_left (fun resources '(zone, instances) =>
            fold_left (fun resources instance =>
              let r := NewResource
                ("projects/" +:+ Project g +:+ "/zones/" +:+ zone +:+ "/instances/" +:+ Name instance)
                resourceType g in
              resources ++ [r]) instances resources) entries [], None).

(** ** The registry *)

(** The table [resources]: every constant of [ResourceType] has a binding. *)
Definition resources (t : ResourceType) : rtFn :=
  match t with
  | ComputeInstance => computeInstance
  | ComputeFirewall => computeFirewall
  | ComputeNetwork => computeNetwork
  | ComputeHealthCheck => computeHealthCheck
  | ComputeInstanceGroup => computeInstanceGroup
  | ComputeInstanceIAMPolicy => computeInstanceIAMPolicy
  | ComputeBackendService => computeBackendService
  | ComputeBackendBucket => computeBackendBucket
  | ComputeSSLCertificate => computeSSLCertificate
  | ComputeTargetHTTPProxy => computeTargetHTTPProxy
  | ComputeTargetHTTPSProxy => computeTargetHTTPSProxy
  | ComputeURLMap => computeURLMap
  | ComputeGlobalForwardingRule => computeGlobalForwardingRule
  | ComputeForwardingRule => computeForwardingRule
  | ComputeDisk => computeDisk
  | DNSManagedZone => managedZoneDNS
  | DNSRecordSet => recordSetDNS
  | ProjectIAMCustomRole => projectIAMCustomRole
  | StorageBucket => storageBucket
  | StorageBucketIAMPolicy => storageBucketIAMPolicy
  | SQLDatabaseInstance => sqlDatabaseInstance
  end.

(** * Vocabulary of the properties *)

(** The group of one tag predicate, [(labels.<name>=<value>)]. *)
Definition label_group (t : Tag) : string :=
  "(labels." +:+ tagName t +:+ "=" +:+ tagValue t +:+ ")".

(** The groups of a filter joined by single spaces, in the order of the
    tags. *)
Definition joined_groups (filters : Filter) : string :=
  String.concat " " (map label_group (Tags filters)).

(** The handles of a zoned listing visited in the order [entries]. *)
Definition flatten {A B : Type} (mk : string -> A -> B)
    (entries : list (string * list A)) : list B :=
  entries ≫= (fun '(z, xs) => mk z <$> xs).

(** The number of items of a zoned listing: the sum, over its scope keys,
    of the number of items under the key. *)
Definition item_count {A : Type} (m : gmap string (list A)) : nat :=
  sum_list_with (fun e => length e.2) (map_to_list m).

(** The zoned listing a scope-partitioned fetch function obtains from the
    reader: instances for [computeInstance] and [computeInstanceIAMPolicy],
    instance groups and disks for the two others. *)
Definition zoned_listing (rt : runtime) (filters : Filter) (t : ResourceType)
    : option (gmap string (list Item) * option error) :=
  match t with
  | ComputeInstance | ComputeInstanceIAMPolicy =>
      Some (reader rt (ListInstances (initializeFilter filters)))
  | ComputeInstanceGroup => Some (reader rt (ListInstanceGroups noFilter))
  | ComputeDisk => Some (reader rt (ListDisks (initializeFilter filters)))
  | _ => None
  end.

(** The fetch functions that range over a map: the scope-partitioned ones
    and [recordSetDNS]. *)
Definition ranges_over_map (t : ResourceType) : bool :=
  match t with
  | ComputeInstance | ComputeInstanceGroup | ComputeInstanceIAMPolicy
  | ComputeDisk | DNSRecordSet => true
  | _ => false
  end.

(** The flat listings: networks, firewalls, health checks, backend services,
    backend buckets, URL maps, target HTTP and HTTPS proxies, SSL
    certificates, storage buckets, SQL instances and DNS managed zones. *)
Definition flat_listing (t : ResourceType) : bool :=
  match t with
  | ComputeNetwork | ComputeFirewall | ComputeHealthCheck
  | ComputeBackendService | ComputeBackendBucket | ComputeURLMap
  | ComputeTargetHTTPProxy | ComputeTargetHTTPSProxy | ComputeSSLCertificate
  | StorageBucket | SQLDatabaseInstance | DNSManagedZone => true
  | _ => false
  end.

(** The error a reader method returned. *)
Definition resp_err (c : Call) : Resp c -> option error :=
  match c with
  | ListInstances _ | ListInstanceGroups _ | ListDisks _ => snd
  | ListResourceRecordSets _ => snd
  | _ => snd
  end.

(** A reader that finds nothing and never fails. *)
Definition nothing (c : Call) : Resp c :=
  match c with
  | ListInstances _ | ListInstanceGroups _ | ListDisks _ => (∅, None)
  | ListResourceRecordSets _ => (∅, None)
  | _ => ([], None)
  end.

(** Two ways of ranging over a map: in the order of [map_to_list], and in
    the opposite order. *)
Definition ascending (V : Type) (m : gmap string V) : list (string * V) :=
  map_to_list m.

Definition descending (V : Type) (m : gmap string V) : list (string * V) :=
  reverse (map_to_list m).

Definition prod_tag : Filter :=
  {| Tags := [ {| tagName := "env"; tagValue := "prod" |} ] |}.

Definition proj : google := {| Project := "proj"; gcpr_project := "proj" |}.

(** The upstream data of the scenarios: one instance [web-1] in zone
    [us-central1-a], two disks in zone [us-east1-b]. *)
Definition web_reader (c : Call) : Resp c :=
  match c with
  | ListInstances _ => ({[ "us-central1-a" := [ {| Name := "web-1" |} ] ]}, None)
  | ListDisks _ =>
      ({[ "us-east1-b" := [ {| Name := "disk-1" |}; {| Name := "disk-2" |} ] ]},
       None)
  | c => nothing c
  end.

Definition web : runtime := {| reader := web_reader; order := ascending |}.

(** The listing of managed zones fails. *)
Definition zones_down_reader (c : Call) : Resp c :=
  match c with
  | ListManagedZones => ([], Some (Upstream "boom"))
  | c => nothing c
  end.

Definition zones_down : runtime :=
  {| reader := zones_down_reader; order := ascending |}.

(** There is no managed zone. *)
Definition no_zones : runtime := {| reader := nothing; order := ascending |}.

(** There is no managed zone, and the reader still answers the request for
    the record sets of no zone with a record set of a zone [zX]. *)
Definition stray_records_reader (c : Call) : Resp c :=
  match c with
  | ListResourceRecordSets _ =>
      ({[ "zX" := [ {| rrName := "www"; rrType := "A" |} ] ]}, None)
  | c => nothing c
  end.

Definition stray_records : runtime :=
  {| reader := stray_records_reader; order := ascending |}.

(** One managed zone [z1] with one record set. *)
Definition z1_reader (c : Call) : Resp c :=
  match c with
  | ListManagedZones => ([ {| Name := "z1" |} ], None)
  | ListResourceRecordSets zones =>
      (list_to_map
         ((fun z => (z, [ {| rrName := "www"; rrType := "A" |} ])) <$> zones),
       None)
  | c => nothing c
  end.

Definition z1 : runtime := {| reader := z1_reader; order := ascending |}.

(** The listing of buckets fails; the listing of global forwarding rules
    fails. *)
Definition buckets_down_reader (c : Call) : Resp c :=
  match c with
  | ListBuckets => ([], Some (Upstream "boom"))
  | c => nothing c
  end.

Definition buckets_down : runtime :=
  {| reader := buckets_down_reader; order := ascending |}.

Definition rules_down_reader (c : Call) : Resp c :=
  match c with
  | ListGlobalForwardingRules _ => ([], Some (Upstream "boom"))
  | c => nothing c
  end.

Definition rules_down : runtime :=
  {| reader := rules_down_reader; order := ascending |}.

(** One disk in each of two zones, ranged over in two orders. *)
Definition two_zones_reader (c : Call) : Resp c :=
  match c with
  | ListDisks _ =>
      ({[ "us-east1-b" := [ {| Name := "disk-1" |} ];
          "us-east1-c" := [ {| Name := "disk-2" |} ] ]}, None)
  | c => nothing c
  end.

Definition two_zones_up : runtime :=
  {| reader := two_zones_reader; order := ascending |}.

Definition two_zones_down : runtime :=
  {| reader := two_zones_reader; order := descending |}.

(** Instance groups in three zones, one of which has none. *)
Definition groups_listing : gmap string (list Item) :=
  {[ "europe-west1-b" := [ {| Name := "ig-1" |}; {| Name := "ig-2" |} ];
     "europe-west1-c" := [];
     "europe-west1-d" := [ {| Name := "ig-3" |} ] ]}.

Definition groups_reader (c : Call) : Resp c :=
  match c with
  | ListInstanceGroups _ => (groups_listing, None)
  | c => nothing c
  end.

Definition groups : runtime :=
  {| reader := groups_reader; order := descending |}.

(** ** Vocabulary of the further properties *)

(** The items of a flat listing answered by the reader; a zoned listing
    has none. *)
Definition flat_items (c : Call) : Resp c -> list Item :=
  match c with
  | ListInstances _ | ListInstanceGroups _ | ListDisks _ => fun _ => []
  | ListResourceRecordSets _ => fun _ => []
  | _ => fst
  end.

(** The filter argument of a reader method, for the methods that take
    one. *)
Definition call_filter (c : Call) : option string :=
  match c with
  | ListInstances f | ListFirewalls f | ListNetworks f | ListHealthChecks f
  | ListInstanceGroups f | ListBackendServices f | ListURLMaps f
  | ListTargetHTTPProxies f | ListTargetHTTPSProxies f
  | ListSSLCertificates f | ListGlobalForwardingRules f
  | ListForwardingRules f | ListDisks f | ListStorageInstances f
  | ListBackendBuckets f => Some f
  | ListBuckets | ListManagedZones | ListResourceRecordSets _
  | ListProjectIAMCustomRoles _ => None
  end.

(** The fetch functions that call [initializeFilter]. *)
Definition uses_filter (t : ResourceType) : bool :=
  match t with
  | ComputeInstance | ComputeGlobalForwardingRule | ComputeForwardingRule
  | ComputeDisk | ComputeInstanceIAMPolicy => true
  | _ => false
  end.

(** The identifier a fetch function other than [recordSetDNS] gives to the
    item named [n] listed under the scope key [z] (a flat listing has no
    scope key). *)
Definition scoped_identifier (t : ResourceType) (g : google) (z n : string)
    : string :=
  match t with
  | ComputeInstance | ComputeInstanceGroup =>
      Project g +:+ "/" +:+ z +:+ "/" +:+ n
  | ComputeDisk => z +:+ "/" +:+ n
  | ComputeInstanceIAMPolicy =>
      "projects/" +:+ Project g +:+ "/zones/" +:+ z +:+ "/instances/" +:+ n
  | _ => n
  end.

(** Whether a string holds the separator of the identifiers. *)
Fixpoint has_slash (s : string) : bool :=
  match s with
  | EmptyString => false
  | String c s' => if Ascii.eqb c "/"%char then true else has_slash s'
  end.

(** The three fetch functions whose failures carry the context "unable to
    list global forwarding rules from reader". *)
Definition shares_context (t : ResourceType) : bool :=
  match t with
  | ComputeGlobalForwardingRule | ComputeForwardingRule | StorageBucket => true
  | _ => false
  end.

(** The contexts with which each fetch function wraps the errors it
    returns. *)
Definition failure_contexts (t : ResourceType) : list string :=
  match t with
  | ComputeInstance => ["unable to list instances from reader"]
  | ComputeFirewall => ["unable to list firewalls from reader"]
  | ComputeNetwork => ["unable to list networks from reader"]
  | ComputeHealthCheck => ["unable to list health checks from reader"]
  | ComputeInstanceGroup => ["unable to list instance groups from reader"]
  | ComputeInstanceIAMPolicy => ["unable to list compute instances from reader"]
  | ComputeBackendBucket => ["unable to list backend buckets from reader"]
  | ComputeBackendService => ["unable to list backend services from reader"]
  | ComputeSSLCertificate => ["unable to list SSL certificates from reader"]
  | ComputeTargetHTTPProxy => ["unable to list target http proxies from reader"]
  | ComputeTargetHTTPSProxy =>
      ["unable to list target https proxies from reader"]
  | ComputeURLMap => ["unable to list URL maps from reader"]
  | ComputeGlobalForwardingRule =>
      ["unable to list global forwarding rules from reader"]
  | ComputeForwardingRule =>
      ["unable to list global forwarding rules from reader"]
  | ComputeDisk => ["unable to list disks from reader"]
  | DNSManagedZone => ["unable to list DNS managed zone from reader"]
  | DNSRecordSet =>
      ["unable to previously fetch managed zones";
       "unable to list resources record se record sett from reader"]
  | ProjectIAMCustomRole =>
      ["unable to list project IAM custom roles from reader"]
  | StorageBucket => ["unable to list global forwarding rules from reader"]
  | StorageBucketIAMPolicy =>
      ["unable to list bucket policies custom roles from reader"]
  | SQLDatabaseInstance =>
      ["unable to list sql storage instances rules from reader"]
  end.

(** One managed zone, and the listing of its record sets fails. *)
Definition records_down_reader (c : Call) : Resp c :=
  match c with
  | ListManagedZones => ([ {| Name := "z1" |} ], None)
  | ListResourceRecordSets _ => (∅, Some (Upstream "boom"))
  | c => nothing c
  end.

Definition records_down : runtime :=
  {| reader := records_down_reader; order := descending |}.

(** Two buckets. *)
Definition buckets_reader (c : Call) : Resp c :=
  match c with
  | ListBuckets => ([ {| Name := "logs" |}; {| Name := "assets" |} ], None)
  | c => nothing c
  end.

Definition buckets : runtime :=
  {| reader := buckets_reader; order := descending |}.

(** * Properties *)

(** ** Strings and loops *)

Lemma append_cons (x : Ascii.ascii) (a b : string) :
  String x a +:+ b = String x (a +:+ b).
Proof. reflexivity. Qed.

Lemma append_assoc (a b c : string) : (a +:+ b) +:+ c = a +:+ (b +:+ c).
Proof.
  induction a as [|x a IH]; [done |]. by rewrite !append_cons, IH.
Qed.

Lemma append_empty_r (a : string) : a +:+ "" = a.
Proof. induction a as [|x a IH]; [done |]. by rewrite append_cons, IH. Qed.

(** A buffer filled by successive [WriteString]s holds the concatenation of
    what was written. *)
Lemma fold_left_write {A : Type} (w : A -> string) (l : list A) (b : string) :
  fold_left (fun b t => b +:+ w t) l b = b +:+ String.concat "" (map w l).
Proof.
  revert b; induction l as [|t l IH]; intros b; simpl.
  - by rewrite append_empty_r.
  - rewrite IH, append_assoc. destruct l as [|u l]; [|done].
    simpl. by rewrite append_empty_r.
Qed.

(** A slice filled by successive [append]s of one element. *)
Lemma fold_left_append {A B : Type} (mk : A -> B) (l : list A) (acc : list B) :
  fold_left (fun resources x => resources ++ [mk x]) l acc = acc ++ map mk l.
Proof.
  revert acc; induction l as [|x l IH]; intros acc; simpl.
  - by rewrite app_nil_r.
  - by rewrite IH, <- app_assoc.
Qed.

Lemma fold_left_zoned {A B : Type} (mk : string -> A -> B)
    (entries : list (string * list A)) (acc : list B) :
  fold_left (fun resources '(z, xs) =>
      fold_left (fun resources x => resources ++ [mk z x]) xs resources)
    entries acc
  = acc ++ flatten mk entries.
Proof.
  revert acc; induction entries as [|[z xs] entries IH]; intros acc; simpl.
  - by rewrite app_nil_r.
  - rewrite IH, fold_left_append. by rewrite <- app_assoc.
Qed.

(** ** The Filter Compiler *)

Lemma Sprintf_label_group (t : Tag) : Sprintf_label t = label_group t +:+ " ".
Proof.
  unfold Sprintf_label, label_group. by rewrite !append_assoc.
Qed.

Lemma initializeFilter_concat (filters : Filter) :
  initializeFilter filters = String.concat "" (map Sprintf_label (Tags filters)).
Proof. unfold initializeFilter. by rewrite fold_left_write. Qed.

Lemma concat_written_groups (t : Tag) (l : list Tag) :
  String.concat "" (map Sprintf_label (t :: l))
  = String.concat " " (map label_group (t :: l)) +:+ " ".
Proof.
  revert t; induction l as [|u l IH]; intros t.
  - simpl. apply Sprintf_label_group.
  - change (String.concat "" (map Sprintf_label (t :: u :: l)))
      with (Sprintf_label t +:+ "" +:+ String.concat "" (map Sprintf_label (u :: l))).
    change (String.concat " " (map label_group (t :: u :: l)))
      with (label_group t +:+ " " +:+ String.concat " " (map label_group (u :: l))).
    rewrite IH, Sprintf_label_group. simpl String.append at 2.
    by rewrite !append_assoc.
Qed.

(** C3, as stated, fails: for the filter with the single tag [env=prod] the
    groups joined by single spaces are ["(labels.env=prod)"], while
    [initializeFilter] returns that string followed by a space. *)
Lemma initializeFilter_trailing_space :
  Tags prod_tag ≠ []
  ∧ joined_groups prod_tag = "(labels.env=prod)"
  ∧ initializeFilter prod_tag = "(labels.env=prod) "
  ∧ initializeFilter prod_tag ≠ joined_groups prod_tag.
Proof. repeat split; done. Qed.

(** C3, amended: for every filter with at least one tag, [initializeFilter]
    returns one group [(labels.<name>=<value>)] per tag, in the order of the
    tags, the groups joined by single spaces, followed by one more space. *)
Theorem initializeFilter_groups (filters : Filter) :
  Tags filters ≠ [] ->
  initializeFilter filters = joined_groups filters +:+ " ".
Proof.
  intros Hne. rewrite initializeFilter_concat. unfold joined_groups.
  destruct (Tags filters) as [|t l]; [done |]. apply concat_written_groups.
Qed.

Lemma initializeFilter_groups_witness :
  Tags prod_tag ≠ []
  ∧ initializeFilter prod_tag = joined_groups prod_tag +:+ " ".
Proof. split; [done | apply initializeFilter_groups; done]. Defined.

(** C4: [initializeFilter] returns the empty string exactly when the filter
    has no tag. *)
Theorem initializeFilter_empty_iff (filters : Filter) :
  initializeFilter filters = "" <-> Tags filters = [].
Proof.
  rewrite initializeFilter_concat. split.
  - destruct (Tags filters) as [|t l]; [done |]. intros H.
    rewrite concat_written_groups in H.
    destruct l; discriminate H.
  - by intros ->.
Qed.

(** ** Running the fetch functions *)

Lemma run_bind {A B : Type} (rt : runtime) (p : Prog A) (f : A -> Prog B) :
  run rt (p ≫= f)
  = ((run rt p).1 ++ (run rt (f (run rt p).2)).1, (run rt (f (run rt p).2)).2).
Proof.
  induction p as [a | c k IH | V m k IH]; simpl.
  - by destruct (run rt (f a)).
  - unfold mbind, Prog_bind in IH. rewrite IH.
    by destruct (run rt (k (reader rt c))).
  - apply IH.
Qed.

Lemma computeInstance_run rt g resourceType filters :
  run rt (computeInstance g resourceType filters)
  = ([ListInstances (initializeFilter filters)],
     let '(instancesList, err) := reader rt (ListInstances (initializeFilter filters)) in
     match err with
     | Some e => ([], Some (withMessage e "unable to list instances from reader"))
     | None =>
         (flatten (fun z instance =>
            NewResource (Project g +:+ "/" +:+ z +:+ "/" +:+ Name instance)
              resourceType g) (order rt _ instancesList), None)
     end).
Proof.
  unfold computeInstance. simpl.
  destruct (reader rt (ListInstances (initializeFilter filters))) as [m [e|]];
    simpl; [done |].
  by rewrite fold_left_zoned.
Qed.

Lemma computeInstanceGroup_run rt g resourceType filters :
  run rt (computeInstanceGroup g resourceType filters)
  = ([ListInstanceGroups noFilter],
     let '(instanceGroups, err) := reader rt (ListInstanceGroups noFilter) in
     match err with
     | Some e =>
         ([], Some (withMessage e "unable to list instance groups from reader"))
     | None =>
         (flatten (fun z group =>
            NewResource (Project g +:+ "/" +:+ z +:+ "/" +:+ Name group)
              resourceType g) (order rt _ instanceGroups), None)
     end).
Proof.
  unfold computeInstanceGroup. simpl.
  destruct (reader rt (ListInstanceGroups noFilter)) as [m [e|]];
    simpl; [done |].
  by rewrite fold_left_zoned.
Qed.

Lemma computeDisk_run rt g resourceType filters :
  run rt (computeDisk g resourceType filters)
  = ([ListDisks (initializeFilter filters)],
     let '(disksList, err) := reader rt (ListDisks (initializeFilter filters)) in
     match err with
     | Some e => ([], Some (withMessage e "unable to list disks from reader"))
     | None =>
         (flatten (fun z disk =>
            NewResource (z +:+ "/" +:+ Name disk) resourceType g)
            (order rt _ disksList), None)
     end).
Proof.
  unfold computeDisk. simpl.
  destruct (reader rt (ListDisks (initializeFilter filters))) as [m [e|]];
    simpl; [done |].
  by rewrite fold_left_zoned.
Qed.

Lemma computeInstanceIAMPolicy_run rt g resourceType filters :
  run rt (computeInstanceIAMPolicy g resourceType filters)
  = ([ListInstances (initializeFilter filters)],
     let '(list, err) := reader rt (ListInstances (initializeFilter filters)) in
     match err with
     | Some e =>
         ([], Some (withMessage e "unable to list compute instances from reader"))
     | None =>
         (flatten (fun zone instance =>
            NewResource ("projects/" +:+ Project g +:+ "/zones/" +:+ zone
                         +:+ "/instances/" +:+ Name instance)
              resourceType g) (order rt _ list), None)
     end).
Proof.
  unfold computeInstanceIAMPolicy. simpl.
  destruct (reader rt (ListInstances (initializeFilter filters))) as [m [e|]];
    simpl; [done |].
  by rewrite fold_left_zoned.
Qed.

(** ** Zoned listings *)

Lemma elem_of_flatten {A B : Type} (mk : string -> A -> B)
    (entries : list (string * list A)) (r : B) :
  r ∈ flatten mk entries
  <-> exists z xs x, (z, xs) ∈ entries ∧ x ∈ xs ∧ r = mk z x.
Proof.
  unfold flatten. rewrite list_elem_of_bind. split.
  - intros [[z xs] [Hr He]]. apply list_elem_of_fmap in Hr as [x [-> Hx]].
    by exists z, xs, x.
  - intros (z & xs & x & He & Hx & ->). exists (z, xs). split; [|done].
    apply list_elem_of_fmap. by exists x.
Qed.

Lemma flatten_Permutation {A B : Type} (mk : string -> A -> B)
    (es es' : list (string * list A)) :
  es ≡ₚ es' -> flatten mk es ≡ₚ flatten mk es'.
Proof. intros H. unfold flatten. by rewrite H. Qed.

Lemma length_flatten {A B : Type} (mk : string -> A -> B)
    (entries : list (string * list A)) :
  length (flatten mk entries) = sum_list_with (fun e => length e.2) entries.
Proof.
  unfold flatten. induction entries as [|[z xs] entries IH]; [done |].
  rewrite bind_cons, length_app, length_fmap, IH. done.
Qed.

(** Ranging fairly over a map meets exactly the entries of the map. *)
Lemma elem_of_fair_order rt {V : Type} (m : gmap string V) z (v : V) :
  fair rt -> (z, v) ∈ order rt V m <-> m !! z = Some v.
Proof. intros Hf. by rewrite (Hf V m), elem_of_map_to_list. Qed.

Lemma elem_of_zoned rt {A B : Type} (mk : string -> A -> B)
    (m : gmap string (list A)) (r : B) :
  fair rt ->
  r ∈ flatten mk (order rt _ m)
  <-> exists z xs x, m !! z = Some xs ∧ x ∈ xs ∧ r = mk z x.
Proof.
  intros Hf. rewrite elem_of_flatten. split.
  - intros (z & xs & x & He & Hx & ->). exists z, xs, x.
    by rewrite <- (elem_of_fair_order rt m z xs Hf).
  - intros (z & xs & x & He & Hx & ->). exists z, xs, x.
    by rewrite (elem_of_fair_order rt m z xs Hf).
Qed.

Lemma length_zoned rt {A B : Type} (mk : string -> A -> B)
    (m : gmap string (list A)) :
  fair rt -> length (flatten mk (order rt _ m)) = item_count m.
Proof.
  intros Hf. rewrite length_flatten. unfold item_count. by rewrite (Hf _ m).
Qed.

Lemma fair_ascending (rd : forall c, Resp c) :
  fair {| reader := rd; order := ascending |}.
Proof. intros V m. done. Qed.

Lemma fair_descending (rd : forall c, Resp c) :
  fair {| reader := rd; order := descending |}.
Proof. intros V m. apply reverse_Permutation. Qed.

(** C1: when the listing of instances succeeds, every instance [n] listed
    under a zone [z] yields, with the provider of project [p], the handle
    [p/z/n] by [computeInstance] and the handle
    [projects/p/zones/z/instances/n] by [computeInstanceIAMPolicy]. *)
Theorem instance_identifiers rt g filters tyInstance tyPolicy m z instances instance :
  fair rt ->
  reader rt (ListInstances (initializeFilter filters)) = (m, None) ->
  m !! z = Some instances ->
  instance ∈ instances ->
  NewResource (Project g +:+ "/" +:+ z +:+ "/" +:+ Name instance) tyInstance g
    ∈ (result_of rt (computeInstance g tyInstance filters)).1
  ∧ NewResource ("projects/" +:+ Project g +:+ "/zones/" +:+ z
                 +:+ "/instances/" +:+ Name instance) tyPolicy g
    ∈ (result_of rt (computeInstanceIAMPolicy g tyPolicy filters)).1.
Proof.
  intros Hf Hr Hz Hi. unfold result_of.
  rewrite computeInstance_run, computeInstanceIAMPolicy_run, Hr. simpl.
  split; apply elem_of_zoned; try done; by exists z, instances, instance.
Qed.

Lemma instance_identifiers_witness :
  fair web
  ∧ reader web (ListInstances (initializeFilter prod_tag))
    = ({[ "us-central1-a" := [ {| Name := "web-1" |} ] ]}, None)
  ∧ NewResource "proj/us-central1-a/web-1" "google_compute_instance" proj
    ∈ (result_of web
         (computeInstance proj "google_compute_instance" prod_tag)).1
  ∧ NewResource "projects/proj/zones/us-central1-a/instances/web-1"
      "google_compute_instance_iam_policy" proj
    ∈ (result_of web
         (computeInstanceIAMPolicy proj "google_compute_instance_iam_policy"
            prod_tag)).1.
Proof.
  split; [apply fair_ascending |]. split; [reflexivity |].
  apply (instance_identifiers web proj prod_tag "google_compute_instance"
           "google_compute_instance_iam_policy"
           {[ "us-central1-a" := [ {| Name := "web-1" |} ] ]}
           "us-central1-a" [ {| Name := "web-1" |} ] {| Name := "web-1" |}).
  - apply fair_ascending.
  - reflexivity.
  - reflexivity.
  - constructor.
Defined.

(** The first scenario of the specification, evaluated. *)
Example web_instance :
  run web (computeInstance proj "google_compute_instance" prod_tag)
  = ([ListInstances "(labels.env=prod) "],
     ([NewResource "proj/us-central1-a/web-1" "google_compute_instance" proj],
      None)).
Proof. vm_compute. reflexivity. Qed.

(** The disk scenario of the specification, evaluated. *)
Example web_disks :
  result_of web (computeDisk proj "google_compute_disk" prod_tag)
  = ([NewResource "us-east1-b/disk-1" "google_compute_disk" proj;
      NewResource "us-east1-b/disk-2" "google_compute_disk" proj], None).
Proof. vm_compute. reflexivity. Qed.

(** C2: when the listing of disks succeeds, [computeDisk] returns no error
    and its handles are exactly the handles [z/n], of the resource type
    asked for, of the disks [n] listed under the zones [z]; the project is
    no part of the identifier. *)
Theorem disk_identifiers rt g resourceType filters m :
  fair rt ->
  reader rt (ListDisks (initializeFilter filters)) = (m, None) ->
  (result_of rt (computeDisk g resourceType filters)).2 = None
  ∧ forall r : Resource,
      r ∈ (result_of rt (computeDisk g resourceType filters)).1
      <-> exists z disks disk,
            m !! z = Some disks ∧ disk ∈ disks
            ∧ r = NewResource (z +:+ "/" +:+ Name disk) resourceType g.
Proof.
  intros Hf Hr. unfold result_of. rewrite computeDisk_run, Hr. simpl.
  split; [done |]. intros r. by apply elem_of_zoned.
Qed.

Lemma disk_identifiers_witness :
  fair web
  ∧ reader web (ListDisks (initializeFilter prod_tag))
    = ({[ "us-east1-b" := [ {| Name := "disk-1" |}; {| Name := "disk-2" |} ] ]},
       None)
  ∧ NewResource "us-east1-b/disk-2" "google_compute_disk" proj
    ∈ (result_of web (computeDisk proj "google_compute_disk" prod_tag)).1.
Proof.
  split; [apply fair_ascending |]. split; [reflexivity |].
  apply (disk_identifiers web proj "google_compute_disk" prod_tag
           {[ "us-east1-b" := [ {| Name := "disk-1" |}; {| Name := "disk-2" |} ] ]}
           (fair_ascending web_reader) eq_refl).
  exists "us-east1-b", [ {| Name := "disk-1" |}; {| Name := "disk-2" |} ],
    {| Name := "disk-2" |}.
  split; [reflexivity |]. split; [| reflexivity].
  apply list_elem_of_further, list_elem_of_here.
Defined.

Lemma item_count_delete {A : Type} (m : gmap string (list A)) z xs :
  m !! z = Some xs -> item_count m = length xs + item_count (delete z m).
Proof.
  intros Hz. unfold item_count.
  by rewrite <- (map_to_list_delete m z xs Hz).
Qed.

(** C7: when the zoned listing of a scope-partitioned fetch function
    succeeds, the function returns no error and as many handles as the
    listing has items, summed over its scope keys; a key without items adds
    nothing to the count. *)
Theorem handle_count rt t g resourceType filters m :
  fair rt ->
  zoned_listing rt filters t = Some (m, None) ->
  (result_of rt (resources t g resourceType filters)).2 = None
  ∧ length (result_of rt (resources t g resourceType filters)).1 = item_count m
  ∧ forall z, m !! z = Some [] ->
      length (result_of rt (resources t g resourceType filters)).1
      = item_count (delete z m).
Proof.
  intros Hf Hz.
  assert ((result_of rt (resources t g resourceType filters)).2 = None
          ∧ length (result_of rt (resources t g resourceType filters)).1
            = item_count m) as [He Hl].
  { unfold result_of.
    destruct t; try discriminate Hz; simpl in Hz; simpl resources;
      injection Hz as Hz;
      rewrite ?computeInstance_run, ?computeInstanceGroup_run,
        ?computeDisk_run, ?computeInstanceIAMPolicy_run, Hz; simpl;
      (split; [done | by apply length_zoned]). }
  split; [done |]. split; [done |].
  intros z Hempty. rewrite Hl. by rewrite (item_count_delete m z [] Hempty).
Qed.

Lemma handle_count_witness :
  fair groups
  ∧ zoned_listing groups prod_tag ComputeInstanceGroup
    = Some (groups_listing, None)
  ∧ groups_listing !! "europe-west1-c" = Some []
  ∧ item_count groups_listing = 3
  ∧ (result_of groups
       (resources ComputeInstanceGroup proj "google_compute_instance_group"
          prod_tag)).2 = None
  ∧ length (result_of groups
       (resources ComputeInstanceGroup proj "google_compute_instance_group"
          prod_tag)).1 = item_count groups_listing.
Proof.
  split; [apply fair_descending |]. split; [reflexivity |].
  split; [reflexivity |]. split; [vm_compute; reflexivity |].
  pose proof (handle_count groups ComputeInstanceGroup proj
                "google_compute_instance_group" prod_tag groups_listing
                (fair_descending groups_reader) eq_refl) as [He [Hl _]].
  split; [exact He | exact Hl].
Defined.

(** ** DNS record sets *)

Lemma managedZoneDNS_run rt g resourceType filters :
  run rt (managedZoneDNS g resourceType filters)
  = ([ListManagedZones],
     let '(zones, err) := reader rt ListManagedZones in
     match err with
     | Some e =>
         ([], Some (withMessage e "unable to list DNS managed zone from reader"))
     | None =>
         (map (fun zone => NewResource (Name zone) resourceType g) zones, None)
     end).
Proof.
  unfold managedZoneDNS. simpl.
  destruct (reader rt ListManagedZones) as [zones [e|]]; simpl; [done |].
  by rewrite fold_left_append.
Qed.

(** The identifiers that [recordSetDNS] collects from the managed zones. *)
Lemma zone_identifiers g resourceType (zones : list Item) :
  fold_left (fun zones zone => zones ++ [ID zone])
    (map (fun zone => NewResource (Name zone) resourceType g) zones) []
  = map Name zones.
Proof.
  rewrite (fold_left_append ID). simpl. rewrite map_map. done.
Qed.

Lemma recordSetDNS_run rt g resourceType filters :
  run rt (recordSetDNS g resourceType filters)
  = let '(managedZones, err) := reader rt ListManagedZones in
    match err with
    | Some e =>
        ([ListManagedZones],
         ([], Some (withMessage
                      (withMessage e
                         "unable to list DNS managed zone from reader")
                      "unable to previously fetch managed zones")))
    | None =>
        let zones := map Name managedZones in
        let '(rrsetsList, err) := reader rt (ListResourceRecordSets zones) in
        ([ListManagedZones; ListResourceRecordSets zones],
         match err with
         | Some e =>
             ([], Some (withMessage e
                "unable to list resources record se record sett from reader"))
         | None =>
             (flatten (fun z rrset =>
                NewResource (z +:+ "/" +:+ rrName rrset +:+ "/" +:+ rrType rrset)
                  resourceType g) (order rt _ rrsetsList), None)
         end)
    end.
Proof.
  unfold recordSetDNS. rewrite run_bind, managedZoneDNS_run.
  destruct (reader rt ListManagedZones) as [zones [e|]]; simpl; [done |].
  rewrite zone_identifiers.
  destruct (reader rt (ListResourceRecordSets (map Name zones))) as [m [e|]];
    simpl; [done |].
  by rewrite fold_left_zoned.
Qed.

(** The record-set scenario of the specification, evaluated. *)
Example z1_record_sets :
  run z1 (recordSetDNS proj "google_dns_record_set" prod_tag)
  = ([ListManagedZones; ListResourceRecordSets ["z1"]],
     ([NewResource "z1/www/A" "google_dns_record_set" proj], None)).
Proof. vm_compute. reflexivity. Qed.

(** The message of a failure of the first stage, evaluated: it names the
    managed zones twice, and the cause last. *)
Example recordSetDNS_failure_wording :
  exists err,
    (result_of zones_down
       (recordSetDNS proj "google_dns_record_set" prod_tag)).2 = Some err
    ∧ Error err
      = "unable to previously fetch managed zones: unable to list DNS managed zone from reader: boom".
Proof. eexists. split; vm_compute; reflexivity. Qed.

(** C5: when the listing of managed zones, the first stage of
    [recordSetDNS], fails with an error [e], [recordSetDNS] returns no
    handle and a failure that is attributed to the managed zones, the error
    [e] wrapped first with "unable to list DNS managed zone from reader" and
    then with "unable to previously fetch managed zones"; and the only call
    it makes to the reader is [ListManagedZones]: the call of the second
    stage, [ListResourceRecordSets], is not made. *)
Theorem recordSetDNS_stage_one_failure rt g resourceType filters zones e :
  reader rt ListManagedZones = (zones, Some e) ->
  run rt (recordSetDNS g resourceType filters)
  = ([ListManagedZones],
     ([], Some (withMessage
                  (withMessage e "unable to list DNS managed zone from reader")
                  "unable to previously fetch managed zones"))).
Proof. intros Hr. by rewrite recordSetDNS_run, Hr. Qed.

Lemma recordSetDNS_stage_one_failure_witness :
  reader zones_down ListManagedZones = ([], Some (Upstream "boom"))
  ∧ run zones_down (recordSetDNS proj "google_dns_record_set" prod_tag)
    = ([ListManagedZones],
       ([], Some (withMessage
                    (withMessage (Upstream "boom")
                       "unable to list DNS managed zone from reader")
                    "unable to previously fetch managed zones"))).
Proof.
  split; [reflexivity |].
  apply (recordSetDNS_stage_one_failure zones_down proj "google_dns_record_set"
           prod_tag [] (Upstream "boom")).
  reflexivity.
Defined.

(** A failure of the second stage carries another context than a failure of
    the first. *)
Lemma recordSetDNS_stage_two_failure rt g resourceType filters managedZones m e :
  reader rt ListManagedZones = (managedZones, None) ->
  reader rt (ListResourceRecordSets (map Name managedZones)) = (m, Some e) ->
  result_of rt (recordSetDNS g resourceType filters)
  = ([], Some (withMessage e
       "unable to list resources record se record sett from reader")).
Proof.
  intros H1 H2. unfold result_of. rewrite recordSetDNS_run, H1. cbv zeta.
  by rewrite H2.
Qed.

(** C6, as stated, fails: with no managed zone [recordSetDNS] does call
    [ListResourceRecordSets] with the empty list of zones and returns no
    error, but it ranges over whatever the reader answers; when the answer
    holds a record set of a zone that was not asked for, the handle of that
    record set is returned, not the empty sequence. *)
Lemma recordSetDNS_stray_records :
  fair stray_records
  ∧ reader stray_records ListManagedZones = ([], None)
  ∧ resp_err (ListResourceRecordSets [])
      (reader stray_records (ListResourceRecordSets [])) = None
  ∧ run stray_records (recordSetDNS proj "google_dns_record_set" prod_tag)
    = ([ListManagedZones; ListResourceRecordSets []],
       ([NewResource "zX/www/A" "google_dns_record_set" proj], None))
  ∧ (result_of stray_records
       (recordSetDNS proj "google_dns_record_set" prod_tag)).1 ≠ [].
Proof.
  split; [apply fair_ascending |]. split; [reflexivity |].
  split; [reflexivity |]. split; [vm_compute; reflexivity |].
  vm_compute. discriminate.
Qed.

(** C6, amended: when the listing of managed zones succeeds with no zone,
    [recordSetDNS] calls [ListManagedZones] and then
    [ListResourceRecordSets] with the empty list of zones; when that call
    succeeds, it returns no error and exactly the handles of the record
    sets that the answer holds, one for each: the empty sequence when the
    answer holds no record set. *)
Theorem recordSetDNS_no_zones rt g resourceType filters m :
  fair rt ->
  reader rt ListManagedZones = ([], None) ->
  reader rt (ListResourceRecordSets []) = (m, None) ->
  calls_of rt (recordSetDNS g resourceType filters)
  = [ListManagedZones; ListResourceRecordSets []]
  ∧ (result_of rt (recordSetDNS g resourceType filters)).2 = None
  ∧ (forall r : Resource,
       r ∈ (result_of rt (recordSetDNS g resourceType filters)).1
       <-> exists z rrsets rrset,
             m !! z = Some rrsets ∧ rrset ∈ rrsets
             ∧ r = NewResource
                     (z +:+ "/" +:+ rrName rrset +:+ "/" +:+ rrType rrset)
                     resourceType g)
  ∧ length (result_of rt (recordSetDNS g resourceType filters)).1
    = item_count m
  ∧ (item_count m = 0 ->
     (result_of rt (recordSetDNS g resourceType filters)).1 = []).
Proof.
  intros Hf H1 H2.
  assert (length (result_of rt (recordSetDNS g resourceType filters)).1
          = item_count m) as Hl.
  { unfold result_of. rewrite recordSetDNS_run, H1. simpl. rewrite H2. simpl.
    by apply length_zoned. }
  unfold calls_of, result_of in *.
  rewrite recordSetDNS_run, H1 in *. simpl in *. rewrite H2 in *. simpl in *.
  split; [done |]. split; [done |]. split.
  - intros r. by apply elem_of_zoned.
  - split; [done |]. intros H0. rewrite H0 in Hl.
    by apply nil_length_inv.
Qed.

Lemma recordSetDNS_no_zones_witness :
  fair no_zones
  ∧ reader no_zones ListManagedZones = ([], None)
  ∧ reader no_zones (ListResourceRecordSets []) = (∅, None)
  ∧ item_count (∅ : gmap string (list ResourceRecordSet)) = 0
  ∧ calls_of no_zones (recordSetDNS proj "google_dns_record_set" prod_tag)
    = [ListManagedZones; ListResourceRecordSets []]
  ∧ result_of no_zones (recordSetDNS proj "google_dns_record_set" prod_tag)
    = ([], None).
Proof.
  split; [apply fair_ascending |]. split; [reflexivity |].
  split; [reflexivity |]. split; [reflexivity |].
  destruct (recordSetDNS_no_zones no_zones proj "google_dns_record_set"
              prod_tag ∅ (fair_ascending nothing) eq_refl eq_refl)
    as (Hc & He & _ & _ & Hnil).
  split; [exact Hc |].
  destruct (result_of no_zones
              (recordSetDNS proj "google_dns_record_set" prod_tag))
    as [handles err].
  simpl in He, Hnil. rewrite He, (Hnil eq_refl). reflexivity.
Defined.

(** ** The registry as a whole *)

Ltac unfold_fetch :=
  unfold computeFirewall, computeNetwork, computeHealthCheck,
    computeBackendService, computeURLMap, computeTargetHTTPProxy,
    computeTargetHTTPSProxy, computeSSLCertificate,
    computeGlobalForwardingRule, computeForwardingRule, storageBucket,
    sqlDatabaseInstance, managedZoneDNS, computeBackendBucket,
    projectIAMCustomRole, storageBucketIAMPolicy;
  simpl.

Ltac run_zoned :=
  rewrite ?computeInstance_run, ?computeInstanceGroup_run, ?computeDisk_run,
    ?computeInstanceIAMPolicy_run, ?recordSetDNS_run.

Lemma fair_orders rt1 rt2 {V : Type} (m : gmap string V) :
  fair rt1 -> fair rt2 -> order rt1 V m ≡ₚ order rt2 V m.
Proof. intros H1 H2. by rewrite (H1 V m), (H2 V m). Qed.

(** C9, as stated, fails: with the same answers of the reader, one disk in
    each of two zones, [computeDisk] returns the two handles in one order
    when the map is ranged over in one order, and in the other order when
    it is ranged over in the other. *)
Lemma computeDisk_order_not_fixed :
  fair two_zones_up ∧ fair two_zones_down
  ∧ (forall c, reader two_zones_up c = reader two_zones_down c)
  ∧ (result_of two_zones_up (computeDisk proj "google_compute_disk" prod_tag)).1
    = [NewResource "us-east1-c/disk-2" "google_compute_disk" proj;
       NewResource "us-east1-b/disk-1" "google_compute_disk" proj]
  ∧ (result_of two_zones_down (computeDisk proj "google_compute_disk" prod_tag)).1
    = [NewResource "us-east1-b/disk-1" "google_compute_disk" proj;
       NewResource "us-east1-c/disk-2" "google_compute_disk" proj]
  ∧ (result_of two_zones_up (computeDisk proj "google_compute_disk" prod_tag)).1
    ≠ (result_of two_zones_down
         (computeDisk proj "google_compute_disk" prod_tag)).1.
Proof.
  split; [apply fair_ascending |]. split; [apply fair_descending |].
  split; [done |].
  split; [vm_compute; reflexivity |]. split; [vm_compute; reflexivity |].
  vm_compute. discriminate.
Qed.

(** C9, amended: two invocations of a fetch function of the registry with
    the same provider, resource type and filter and the same answers of the
    reader make the same calls and return the same error and the same
    handles up to their order; the order is the same too for every fetch
    function that does not range over a map. *)
Theorem fetch_deterministic_up_to_order t g resourceType filters rt1 rt2 :
  fair rt1 -> fair rt2 ->
  (forall c, reader rt1 c = reader rt2 c) ->
  calls_of rt1 (resources t g resourceType filters)
  = calls_of rt2 (resources t g resourceType filters)
  ∧ (result_of rt1 (resources t g resourceType filters)).2
    = (result_of rt2 (resources t g resourceType filters)).2
  ∧ (result_of rt1 (resources t g resourceType filters)).1
    ≡ₚ (result_of rt2 (resources t g resourceType filters)).1
  ∧ (ranges_over_map t = false ->
     (result_of rt1 (resources t g resourceType filters)).1
     = (result_of rt2 (resources t g resourceType filters)).1).
Proof.
  intros H1 H2 Hr. unfold calls_of, result_of.
  destruct t; simpl resources; run_zoned; unfold_fetch;
    repeat match goal with
    | |- context [reader rt1 ?c] =>
        rewrite (Hr c); destruct (reader rt2 c) as [? [?|]]; simpl
    end;
    repeat split; try done;
    apply flatten_Permutation, fair_orders; done.
Qed.

Lemma fetch_deterministic_up_to_order_witness :
  fair two_zones_up ∧ fair two_zones_down
  ∧ (forall c, reader two_zones_up c = reader two_zones_down c)
  ∧ (result_of two_zones_up
       (resources ComputeDisk proj "google_compute_disk" prod_tag)).1
    ≡ₚ (result_of two_zones_down
          (resources ComputeDisk proj "google_compute_disk" prod_tag)).1.
Proof.
  split; [apply fair_ascending |]. split; [apply fair_descending |].
  split; [done |].
  apply (fetch_deterministic_up_to_order ComputeDisk proj "google_compute_disk"
           prod_tag two_zones_up two_zones_down
           (fair_ascending two_zones_reader) (fair_descending two_zones_reader)
           (fun c => eq_refl)).
Defined.

(** C10: a flat listing does not depend on the filter: with any two filters
    and the same runtime it makes the same calls and returns the same
    handles and the same error; and it returns no error when the calls it
    made to the reader returned none, whatever the filter holds. *)
Theorem flat_listing_ignores_filter t g resourceType (filters1 filters2 : Filter) rt :
  flat_listing t = true ->
  run rt (resources t g resourceType filters1)
  = run rt (resources t g resourceType filters2)
  ∧ ((forall c, c ∈ calls_of rt (resources t g resourceType filters1) ->
                resp_err c (reader rt c) = None) ->
     (result_of rt (resources t g resourceType filters1)).2 = None).
Proof.
  intros Hflat. split.
  - destruct t; try discriminate Hflat; reflexivity.
  - unfold calls_of, result_of.
    destruct t; try discriminate Hflat; simpl resources; unfold_fetch;
      intros Hok;
      match goal with
      | |- context [reader rt ?c] =>
          specialize (Hok c); destruct (reader rt c) as [? [?|]]; simpl in *
      end;
      try done; by (discriminate Hok; apply list_elem_of_here).
Qed.

Lemma flat_listing_ignores_filter_witness :
  flat_listing ComputeNetwork = true
  ∧ run web (resources ComputeNetwork proj "google_compute_network" prod_tag)
    = run web (resources ComputeNetwork proj "google_compute_network"
                 {| Tags := [] |}).
Proof.
  split; [reflexivity |].
  apply (flat_listing_ignores_filter ComputeNetwork proj
           "google_compute_network" prod_tag {| Tags := [] |} web eq_refl).
Defined.

(** Whatever fetch function fails, it returns no handle and a wrapped
    error. *)
Lemma failure_without_handles t g resourceType filters rt e :
  (result_of rt (resources t g resourceType filters)).2 = Some e ->
  (result_of rt (resources t g resourceType filters)).1 = []
  ∧ is_Some (context_of e).
Proof.
  unfold result_of.
  destruct t; simpl resources; run_zoned; unfold_fetch;
    repeat match goal with
    | |- context [reader rt ?c] => destruct (reader rt c) as [? [?|]]; simpl
    end;
    intros He; try discriminate He; injection He as <-; split; by eauto.
Qed.

(** C8 fails on [storageBucket]: when the listing of buckets fails with
    [boom], the error returned reads "unable to list global forwarding
    rules from reader: boom"; it is the very error that
    [computeGlobalForwardingRule] returns when the listing of global
    forwarding rules fails with [boom]. *)
Theorem storageBucket_failure_context :
  run buckets_down (storageBucket proj "google_storage_bucket" prod_tag)
  = ([ListBuckets],
     ([], Some (withMessage (Upstream "boom")
                  "unable to list global forwarding rules from reader")))
  ∧ run rules_down
      (computeGlobalForwardingRule proj "google_compute_global_forwarding_rule"
         prod_tag)
    = ([ListGlobalForwardingRules "(labels.env=prod) "],
       ([], Some (withMessage (Upstream "boom")
                    "unable to list global forwarding rules from reader")))
  ∧ (exists e,
       (result_of buckets_down
          (storageBucket proj "google_storage_bucket" prod_tag)).2 = Some e
       ∧ Error e = "unable to list global forwarding rules from reader: boom").
Proof.
  split; [vm_compute; reflexivity |]. split; [vm_compute; reflexivity |].
  eexists. split; vm_compute; reflexivity.
Qed.

(** * Further properties *)

(** ** The Filter Compiler, continued *)

Lemma length_append (a b : string) :
  String.length (a +:+ b) = String.length a + String.length b.
Proof.
  induction a as [|x a IH]; [done |]. rewrite append_cons. simpl. by rewrite IH.
Qed.

Lemma concat_written_cons {A : Type} (w : A -> string) (t : A) (l : list A) :
  String.concat "" (map w (t :: l)) = w t +:+ String.concat "" (map w l).
Proof. destruct l; simpl; [by rewrite append_empty_r | done]. Qed.

Lemma initializeFilter_cons (t : Tag) (l : list Tag) :
  initializeFilter {| Tags := t :: l |}
  = Sprintf_label t +:+ initializeFilter {| Tags := l |}.
Proof. rewrite !initializeFilter_concat. apply concat_written_cons. Qed.

(** X1: the fragment compiled for the tags [l1 ++ l2] is the fragment of
    [l1] followed by the fragment of [l2]. *)
Theorem initializeFilter_app (l1 l2 : list Tag) :
  initializeFilter {| Tags := l1 ++ l2 |}
  = initializeFilter {| Tags := l1 |} +:+ initializeFilter {| Tags := l2 |}.
Proof.
  induction l1 as [|t l1 IH]; [done |].
  change ((t :: l1) ++ l2) with (t :: (l1 ++ l2)).
  by rewrite !initializeFilter_cons, IH, append_assoc.
Qed.

(** X2: names and values are written as they are: one tag whose value ends
    with the text of a second group compiles to the very fragment of the two
    tags, so the fragment does not determine the tags. *)
Theorem initializeFilter_forged_group (n v n' v' : string) (rest : list Tag) :
  initializeFilter
    {| Tags := {| tagName := n;
                  tagValue := v +:+ ") (labels." +:+ n' +:+ "=" +:+ v' |}
               :: rest |}
  = initializeFilter
      {| Tags := {| tagName := n; tagValue := v |}
                 :: {| tagName := n'; tagValue := v' |} :: rest |}.
Proof.
  rewrite !initializeFilter_cons. unfold Sprintf_label. simpl tagName.
  simpl tagValue. rewrite !append_assoc. done.
Qed.

(** X3: the fragment is eleven bytes longer, for every tag, than the names
    and the values of the tags together. *)
Theorem initializeFilter_length (filters : Filter) :
  String.length (initializeFilter filters)
  = sum_list_with
      (fun t => String.length (tagName t) + String.length (tagValue t) + 11)
      (Tags filters).
Proof.
  destruct filters as [l]. simpl Tags.
  induction l as [|t l IH]; [done |].
  rewrite initializeFilter_cons, length_append, IH. simpl sum_list_with.
  unfold Sprintf_label. rewrite !length_append. simpl. lia.
Qed.

(** ** The registry, continued *)

Ltac answer_of rt :=
  match goal with
  | |- context [reader rt ?c] =>
      let E := fresh "E" in
      destruct (reader rt c) as [? [?|]] eqn:E; simpl
  end.

(** X4: a fetch function that ranges over no map calls the reader exactly
    once; when the call fails it returns no handle and the error of the
    reader, wrapped once; otherwise it returns, in the order of the listing,
    one handle per item, which carries the name of the item as identifier,
    the resource type asked for and the provider. *)
Theorem flat_fetch_handles t g resourceType filters rt :
  ranges_over_map t = false ->
  exists c,
    calls_of rt (resources t g resourceType filters) = [c]
    ∧ match resp_err c (reader rt c) with
      | Some e =>
          exists msg,
            result_of rt (resources t g resourceType filters)
            = ([], Some (withMessage e msg))
      | None =>
          result_of rt (resources t g resourceType filters)
          = ((fun item => NewResource (Name item) resourceType g)
               <$> flat_items c (reader rt c), None)
      end.
Proof.
  intros Hflat. unfold calls_of, result_of.
  destruct t; try discriminate Hflat; simpl resources; unfold_fetch;
    match goal with
    | |- context [reader rt ?c] =>
        exists c; destruct (reader rt c) as [? [?|]]; simpl
    end;
    (split; [done |]); rewrite ?fold_left_append; eauto.
Qed.

Lemma flat_fetch_handles_witness :
  ranges_over_map StorageBucket = false
  ∧ exists c,
      calls_of buckets
        (resources StorageBucket proj "google_storage_bucket" prod_tag) = [c]
      ∧ match resp_err c (reader buckets c) with
        | Some e =>
            exists msg,
              result_of buckets
                (resources StorageBucket proj "google_storage_bucket" prod_tag)
              = ([], Some (withMessage e msg))
        | None =>
            result_of buckets
              (resources StorageBucket proj "google_storage_bucket" prod_tag)
            = ((fun item => NewResource (Name item) "google_storage_bucket" proj)
                 <$> flat_items c (reader buckets c), None)
        end.
Proof.
  split; [reflexivity |].
  apply (flat_fetch_handles StorageBucket proj "google_storage_bucket" prod_tag
           buckets eq_refl).
Defined.

(** The two buckets, evaluated. *)
Example buckets_handles :
  run buckets (resources StorageBucket proj "google_storage_bucket" prod_tag)
  = ([ListBuckets],
     ([NewResource "logs" "google_storage_bucket" proj;
       NewResource "assets" "google_storage_bucket" proj], None)).
Proof. vm_compute. reflexivity. Qed.

(** X5: a fetch function of the registry returns an error exactly when one
    of the calls it made to the reader returned one: it reports every
    failure of the reader and fails for no other reason. *)
Theorem error_iff_call_failed t g resourceType filters rt :
  is_Some (result_of rt (resources t g resourceType filters)).2
  <-> exists c,
        c ∈ calls_of rt (resources t g resourceType filters)
        ∧ is_Some (resp_err c (reader rt c)).
Proof.
  unfold calls_of, result_of.
  destruct t; simpl resources; run_zoned; unfold_fetch;
    repeat answer_of rt;
    (split;
     [ intros [failure He]; try discriminate He;
       first
         [ eexists; split; [apply list_elem_of_here |];
           match goal with E : reader rt _ = _ |- _ => by rewrite E; eauto end
         | eexists; split; [apply list_elem_of_further, list_elem_of_here |];
           match goal with E : reader rt _ = _ |- _ => by rewrite E; eauto end ]
     | intros (made & Hc & [failure He]); try (by eauto);
       repeat (apply elem_of_cons in Hc as [-> | Hc]);
       try (by apply not_elem_of_nil in Hc);
       match goal with
       | E : reader rt ?c = _ |- _ =>
           rewrite E in He; simpl in He; discriminate He
       end ]).
Qed.

(** X6: every handle that a fetch function of the registry returns carries
    the resource type the function was called with and the provider it was
    called on. *)
Theorem handles_tagged t g resourceType filters rt (r : Resource) :
  r ∈ (result_of rt (resources t g resourceType filters)).1 ->
  Type_ r = resourceType ∧ Provider r = g.
Proof.
  unfold result_of.
  destruct t; simpl resources; run_zoned; unfold_fetch;
    repeat answer_of rt; rewrite ?fold_left_append; simpl;
    intros Hr;
    try (by apply not_elem_of_nil in Hr);
    try (by apply elem_of_flatten in Hr as (? & ? & ? & _ & _ & ->));
    by apply list_elem_of_fmap in Hr as [item [-> _]].
Qed.

Lemma handles_tagged_witness :
  NewResource "z1/www/A" "google_dns_record_set" proj
    ∈ (result_of z1
         (resources DNSRecordSet proj "google_dns_record_set" prod_tag)).1
  ∧ Type_ (NewResource "z1/www/A" "google_dns_record_set" proj)
    = "google_dns_record_set"
  ∧ Provider (NewResource "z1/www/A" "google_dns_record_set" proj) = proj.
Proof.
  assert (NewResource "z1/www/A" "google_dns_record_set" proj
            ∈ (result_of z1
                 (resources DNSRecordSet proj "google_dns_record_set"
                    prod_tag)).1) as Hin.
  { vm_compute. apply list_elem_of_here. }
  split; [exact Hin |].
  apply (handles_tagged DNSRecordSet proj "google_dns_record_set" prod_tag z1
           _ Hin).
Defined.

(** X7: the filter matters in five fetch functions only (instances, global
    and regional forwarding rules, disks, instance IAM policies): each makes
    one call to the reader, whose filter argument is the fragment compiled
    by [initializeFilter], and filters with the same fragment give the same
    calls and the same outcome. In every other fetch function, instance
    groups included, the calls made, with all their arguments, and the
    outcome are the same whatever the filter, and each reader method that
    takes a filter is called with the empty filter. *)
Theorem filter_passed_on t g resourceType filters rt :
  if uses_filter t then
    (exists c,
       calls_of rt (resources t g resourceType filters) = [c]
       ∧ call_filter c = Some (initializeFilter filters))
    ∧ (forall filters',
         initializeFilter filters' = initializeFilter filters ->
         run rt (resources t g resourceType filters')
         = run rt (resources t g resourceType filters))
  else
    (forall filters',
       run rt (resources t g resourceType filters')
       = run rt (resources t g resourceType filters))
    ∧ (forall c f,
         c ∈ calls_of rt (resources t g resourceType filters) ->
         call_filter c = Some f -> f = noFilter).
Proof.
  destruct t; simpl uses_filter; cbv iota; split.
  all: try (intros filters'; reflexivity).
  all: try (intros filters' Heq; simpl resources;
            run_zoned; unfold_fetch; by rewrite Heq).
  all: try (unfold calls_of; simpl resources; run_zoned; unfold_fetch;
            eexists; split; reflexivity).
  all: try (unfold calls_of; simpl resources; run_zoned; unfold_fetch;
            match goal with
            | |- context [reader _ ?c] =>
                exists c; destruct (reader _ c) as [? [?|]]; by simpl
            end).
  all: unfold calls_of; simpl resources; run_zoned; unfold_fetch;
    repeat match goal with
    | |- context [reader _ ?c] => destruct (reader _ c) as [? [?|]]; simpl
    end;
    intros c f Hc Hf;
    repeat (apply elem_of_cons in Hc as [-> | Hc]);
    try (by apply not_elem_of_nil in Hc);
    simpl in Hf; congruence.
Qed.

Lemma filter_passed_on_witness :
  run groups
    (resources ComputeInstanceGroup proj "google_compute_instance_group"
       {| Tags := [] |})
  = run groups
      (resources ComputeInstanceGroup proj "google_compute_instance_group"
         prod_tag)
  ∧ exists c,
      calls_of web
        (resources ComputeDisk proj "google_compute_disk" prod_tag) = [c]
      ∧ call_filter c = Some (initializeFilter prod_tag).
Proof.
  split.
  - apply (filter_passed_on ComputeInstanceGroup proj
             "google_compute_instance_group" prod_tag groups).
  - apply (filter_passed_on ComputeDisk proj "google_compute_disk" prod_tag
             web).
Defined.

Lemma failure_context_listed t g resourceType filters rt e :
  (result_of rt (resources t g resourceType filters)).2 = Some e ->
  exists msg, context_of e = Some msg ∧ msg ∈ failure_contexts t.
Proof.
  unfold result_of.
  destruct t; simpl resources; run_zoned; unfold_fetch;
    repeat answer_of rt;
    intros He; try discriminate He; injection He as <-;
    eexists; (split; [reflexivity |]); simpl;
    first [ apply list_elem_of_here
          | apply list_elem_of_further, list_elem_of_here ].
Qed.

Lemma failure_contexts_apart t1 t2 msg :
  msg ∈ failure_contexts t1 -> msg ∈ failure_contexts t2 ->
  t1 = t2 ∨ (shares_context t1 = true ∧ shares_context t2 = true).
Proof.
  intros H1 H2.
  destruct t1; simpl in H1;
    repeat (apply elem_of_cons in H1 as [-> | H1]);
    try (by apply not_elem_of_nil in H1);
    destruct t2; simpl in H2;
    repeat (apply elem_of_cons in H2 as [H2 | H2]);
    try (by apply not_elem_of_nil in H2);
    try discriminate H2; auto.
Qed.

(** X8: the context of a failure tells which fetch function failed, the
    three that wrap with "unable to list global forwarding rules from
    reader" apart: two functions of the registry whose errors have the same
    context are the same function, or are both among
    [computeGlobalForwardingRule], [computeForwardingRule] and
    [storageBucket]. *)
Theorem failure_context_identifies t1 t2 g1 g2 ty1 ty2 filters1 filters2 rt1 rt2 e1 e2 :
  (result_of rt1 (resources t1 g1 ty1 filters1)).2 = Some e1 ->
  (result_of rt2 (resources t2 g2 ty2 filters2)).2 = Some e2 ->
  context_of e1 = context_of e2 ->
  t1 = t2 ∨ (shares_context t1 = true ∧ shares_context t2 = true).
Proof.
  intros H1 H2 Hctx.
  apply failure_context_listed in H1 as (m1 & Hm1 & Hin1).
  apply failure_context_listed in H2 as (m2 & Hm2 & Hin2).
  assert (m1 = m2) as -> by congruence.
  by eapply failure_contexts_apart.
Qed.

Lemma failure_context_identifies_witness :
  (result_of buckets_down
     (resources StorageBucket proj "google_storage_bucket" prod_tag)).2
  = Some (withMessage (Upstream "boom")
            "unable to list global forwarding rules from reader")
  ∧ (result_of rules_down
       (resources ComputeGlobalForwardingRule proj
          "google_compute_global_forwarding_rule" prod_tag)).2
    = Some (withMessage (Upstream "boom")
              "unable to list global forwarding rules from reader")
  ∧ (StorageBucket = ComputeGlobalForwardingRule
     ∨ (shares_context StorageBucket = true
        ∧ shares_context ComputeGlobalForwardingRule = true)).
Proof.
  split; [reflexivity |]. split; [reflexivity |].
  apply (failure_context_identifies StorageBucket ComputeGlobalForwardingRule
           proj proj "google_storage_bucket"
           "google_compute_global_forwarding_rule" prod_tag prod_tag
           buckets_down rules_down
           (withMessage (Upstream "boom")
              "unable to list global forwarding rules from reader")
           (withMessage (Upstream "boom")
              "unable to list global forwarding rules from reader")
           eq_refl eq_refl eq_refl).
Defined.

(** ** Zoned listings, continued *)

Lemma zoned_result t g resourceType filters rt m :
  zoned_listing rt filters t = Some (m, None) ->
  (result_of rt (resources t g resourceType filters)).1
  = flatten (fun z item =>
       NewResource (scoped_identifier t g z (Name item)) resourceType g)
      (order rt _ m).
Proof.
  intros Hz. unfold result_of.
  destruct t; try discriminate Hz; simpl in Hz; simpl resources;
    injection Hz as Hz; run_zoned; by rewrite Hz.
Qed.

(** X9: when its zoned listing succeeds, a scope-partitioned fetch function
    returns the handles scope by scope: the scopes come in some order, the
    handles of one scope are adjacent and in the order of the listing, and
    each identifier follows the scheme of the function (instance groups use
    [project/zone/name] like instances). *)
Theorem zoned_fetch_handles t g resourceType filters rt m :
  fair rt ->
  zoned_listing rt filters t = Some (m, None) ->
  exists entries,
    entries ≡ₚ map_to_list m
    ∧ (result_of rt (resources t g resourceType filters)).1
      = flatten (fun z item =>
           NewResource (scoped_identifier t g z (Name item)) resourceType g)
          entries.
Proof.
  intros Hf Hz. exists (order rt _ m). split; [apply Hf |].
  by apply zoned_result.
Qed.

Lemma zoned_fetch_handles_witness :
  fair groups
  ∧ zoned_listing groups prod_tag ComputeInstanceGroup
    = Some (groups_listing, None)
  ∧ exists entries,
      entries ≡ₚ map_to_list groups_listing
      ∧ (result_of groups
           (resources ComputeInstanceGroup proj "google_compute_instance_group"
              prod_tag)).1
        = flatten (fun z item =>
             NewResource
               (scoped_identifier ComputeInstanceGroup proj z (Name item))
               "google_compute_instance_group" proj)
            entries.
Proof.
  split; [apply fair_descending |]. split; [reflexivity |].
  apply (zoned_fetch_handles ComputeInstanceGroup proj
           "google_compute_instance_group" prod_tag groups groups_listing
           (fair_descending groups_reader) eq_refl).
Defined.

(** The instance groups of the three zones, evaluated. *)
Example groups_handles :
  ID <$> (result_of groups
            (resources ComputeInstanceGroup proj "google_compute_instance_group"
               prod_tag)).1
  = ["proj/europe-west1-d/ig-3"; "proj/europe-west1-b/ig-1";
     "proj/europe-west1-b/ig-2"].
Proof. vm_compute. reflexivity. Qed.

(** ** Unique identifiers *)

Lemma slash_split (z z' n n' : string) :
  has_slash z = false -> has_slash z' = false ->
  z +:+ String "/" n = z' +:+ String "/" n' -> z = z' ∧ n = n'.
Proof.
  revert z'. induction z as [|c z IH]; intros [|c' z'] Hz Hz' Heq.
  - simpl in Heq. by injection Heq.
  - rewrite append_cons in Heq. simpl in Heq. injection Heq as <- _.
    simpl in Hz'. discriminate Hz'.
  - rewrite append_cons in Heq. simpl in Heq. injection Heq as -> _.
    simpl in Hz. discriminate Hz.
  - rewrite !append_cons in Heq. injection Heq as -> Heq.
    simpl in Hz, Hz'. destruct (Ascii.eqb c' "/"); [discriminate Hz |].
    destruct (IH z' Hz Hz' Heq) as [-> ->]. done.
Qed.

(** An identifier of a scope-partitioned fetch function tells the zone and
    the name it was made of, when the zones hold no slash. *)
Lemma scoped_identifier_inj t g (z z' n n' : string) :
  (t = ComputeInstance ∨ t = ComputeInstanceGroup ∨ t = ComputeDisk
   ∨ t = ComputeInstanceIAMPolicy) ->
  has_slash z = false -> has_slash z' = false ->
  scoped_identifier t g z n = scoped_identifier t g z' n' ->
  z = z' ∧ n = n'.
Proof.
  intros Ht Hz Hz' Heq.
  destruct Ht as [-> | [-> | [-> | ->]]]; simpl in Heq.
  - apply (inj (String.append (Project g))) in Heq.
    change ("/" +:+ z +:+ "/" +:+ n) with (String "/" (z +:+ String "/" n)) in Heq.
    change ("/" +:+ z' +:+ "/" +:+ n') with (String "/" (z' +:+ String "/" n')) in Heq.
    injection Heq as Heq. by apply slash_split.
  - apply (inj (String.append (Project g))) in Heq.
    change ("/" +:+ z +:+ "/" +:+ n) with (String "/" (z +:+ String "/" n)) in Heq.
    change ("/" +:+ z' +:+ "/" +:+ n') with (String "/" (z' +:+ String "/" n')) in Heq.
    injection Heq as Heq. by apply slash_split.
  - by apply slash_split.
  - apply (inj (String.append "projects/")) in Heq.
    apply (inj (String.append (Project g))) in Heq.
    apply (inj (String.append "/zones/")) in Heq.
    change ("/instances/" +:+ n) with (String "/" ("instances/" +:+ n)) in Heq.
    change ("/instances/" +:+ n') with (String "/" ("instances/" +:+ n')) in Heq.
    apply slash_split in Heq as [-> Heq]; [| done | done].
    by apply (inj (String.append "instances/")) in Heq as ->.
Qed.

Lemma fmap_flatten {A B C : Type} (h : B -> C) (mk : string -> A -> B)
    (entries : list (string * list A)) :
  h <$> flatten mk entries = flatten (fun z x => h (mk z x)) entries.
Proof.
  unfold flatten. induction entries as [|[z xs] entries IH]; [done |].
  rewrite !bind_cons, fmap_app, IH. f_equal.
  by rewrite <- list_fmap_compose.
Qed.

(** X10: the handles that a scope-partitioned fetch function returns have
    pairwise different identifiers, provided that no zone of the listing
    holds a slash and that the items of one zone have different names. *)
Theorem zoned_identifiers_unique t g resourceType filters rt m :
  fair rt ->
  zoned_listing rt filters t = Some (m, None) ->
  (forall z items, m !! z = Some items ->
     has_slash z = false ∧ NoDup (Name <$> items)) ->
  NoDup (ID <$> (result_of rt (resources t g resourceType filters)).1).
Proof.
  intros Hf Hz Hm.
  assert (t = ComputeInstance ∨ t = ComputeInstanceGroup ∨ t = ComputeDisk
          ∨ t = ComputeInstanceIAMPolicy) as Ht.
  { destruct t; try discriminate Hz; auto. }
  rewrite (zoned_result t g resourceType filters rt m Hz).
  pose proof (Hf _ m) as Hperm. set (entries := order rt _ m) in *.
  rewrite fmap_flatten. simpl ID. unfold flatten.
  assert (forall z items, (z, items) ∈ entries -> m !! z = Some items) as Hin.
  { intros z items He. apply elem_of_map_to_list. by rewrite <- Hperm. }
  apply NoDup_bind.
  - intros [z1 xs1] [z2 xs2] y H1 H2 Hy1 Hy2.
    apply list_elem_of_fmap in Hy1 as (x1 & -> & Hx1).
    apply list_elem_of_fmap in Hy2 as (x2 & Heq & Hx2).
    apply Hin in H1, H2.
    destruct (Hm z1 xs1 H1) as [Hs1 _]. destruct (Hm z2 xs2 H2) as [Hs2 _].
    apply (scoped_identifier_inj t g) in Heq as [-> _]; [| done ..].
    congruence.
  - intros [z xs] He. apply Hin in He. destruct (Hm z xs He) as [Hs Hnd].
    rewrite (list_fmap_compose Name (scoped_identifier t g z)).
    apply NoDup_fmap_2_strong; [| done].
    intros n n' _ _ Heq.
    by apply (scoped_identifier_inj t g) in Heq as [_ ->].
  - apply (NoDup_fmap_1 fst). rewrite Hperm. apply NoDup_fst_map_to_list.
Qed.

Lemma zoned_identifiers_unique_witness :
  fair web
  ∧ zoned_listing web prod_tag ComputeDisk
    = Some ({[ "us-east1-b" := [ {| Name := "disk-1" |};
                                 {| Name := "disk-2" |} ] ]}, None)
  ∧ NoDup (ID <$> (result_of web
                     (resources ComputeDisk proj "google_compute_disk"
                        prod_tag)).1).
Proof.
  split; [apply fair_ascending |]. split; [reflexivity |].
  apply (zoned_identifiers_unique ComputeDisk proj "google_compute_disk"
           prod_tag web
           {[ "us-east1-b" := [ {| Name := "disk-1" |};
                                {| Name := "disk-2" |} ] ]}
           (fair_ascending web_reader) eq_refl).
  intros z items [<- <-]%lookup_singleton_Some.
  split; [reflexivity |]. apply NoDup_cons.
  split; [by intros ?%list_elem_of_singleton | apply NoDup_singleton].
Defined.

(** Without the proviso two handles can share an identifier: the disk [c]
    of a zone [a/b] and the disk [b/c] of a zone [a]. *)
Example scoped_identifier_clash :
  scoped_identifier ComputeDisk proj "a/b" "c"
  = scoped_identifier ComputeDisk proj "a" "b/c".
Proof. reflexivity. Qed.

(** ** IAM policies *)

(** X11: the fetch functions of the IAM policies go through the listing of
    the resources the policies are bound to: [storageBucketIAMPolicy] makes
    the call of [storageBucket] and returns handles with the same
    identifiers, the names of the buckets; [computeInstanceIAMPolicy] makes
    the call of [computeInstance] and returns as many handles. *)
Theorem policies_follow_resources g tyResource tyPolicy filters rt :
  calls_of rt (storageBucketIAMPolicy g tyPolicy filters)
  = calls_of rt (storageBucket g tyResource filters)
  ∧ ID <$> (result_of rt (storageBucketIAMPolicy g tyPolicy filters)).1
    = ID <$> (result_of rt (storageBucket g tyResource filters)).1
  ∧ calls_of rt (computeInstanceIAMPolicy g tyPolicy filters)
    = calls_of rt (computeInstance g tyResource filters)
  ∧ length (result_of rt (computeInstanceIAMPolicy g tyPolicy filters)).1
    = length (result_of rt (computeInstance g tyResource filters)).1.
Proof.
  unfold calls_of, result_of.
  rewrite computeInstanceIAMPolicy_run, computeInstance_run.
  unfold storageBucketIAMPolicy, storageBucket. simpl.
  destruct (reader rt ListBuckets) as [buckets [e|]];
    destruct (reader rt (ListInstances (initializeFilter filters)))
      as [m [e'|]]; simpl;
    rewrite ?fold_left_append, ?length_flatten; simpl;
    rewrite <- ?list_fmap_compose; done.
Qed.

(** ** DNS record sets, continued *)

(** X12: when both stages succeed, [recordSetDNS] has asked for the record
    sets of the names of the managed zones, in the order of their listing,
    and it returns no error and exactly the handles [z/name/type] of the
    record sets listed under the zones [z], as many as there are record
    sets. *)
Theorem recordSetDNS_record_sets rt g resourceType filters managedZones m :
  fair rt ->
  reader rt ListManagedZones = (managedZones, None) ->
  reader rt (ListResourceRecordSets (Name <$> managedZones)) = (m, None) ->
  calls_of rt (recordSetDNS g resourceType filters)
  = [ListManagedZones; ListResourceRecordSets (Name <$> managedZones)]
  ∧ (result_of rt (recordSetDNS g resourceType filters)).2 = None
  ∧ (forall r : Resource,
       r ∈ (result_of rt (recordSetDNS g resourceType filters)).1
       <-> exists z rrsets rrset,
             m !! z = Some rrsets ∧ rrset ∈ rrsets
             ∧ r = NewResource
                     (z +:+ "/" +:+ rrName rrset +:+ "/" +:+ rrType rrset)
                     resourceType g)
  ∧ length (result_of rt (recordSetDNS g resourceType filters)).1
    = item_count m.
Proof.
  intros Hf H1 H2. unfold calls_of, result_of.
  rewrite recordSetDNS_run, H1. cbv zeta.
  change (map Name managedZones) with (Name <$> managedZones).
  rewrite H2. simpl.
  split; [done |]. split; [done |]. split.
  - intros r. by apply elem_of_zoned.
  - by apply length_zoned.
Qed.

Lemma recordSetDNS_record_sets_witness :
  fair z1
  ∧ reader z1 ListManagedZones = ([ {| Name := "z1" |} ], None)
  ∧ reader z1 (ListResourceRecordSets (Name <$> [ {| Name := "z1" |} ]))
    = ({[ "z1" := [ {| rrName := "www"; rrType := "A" |} ] ]}, None)
  ∧ calls_of z1 (recordSetDNS proj "google_dns_record_set" prod_tag)
    = [ListManagedZones;
       ListResourceRecordSets (Name <$> [ {| Name := "z1" |} ])]
  ∧ length (result_of z1
              (recordSetDNS proj "google_dns_record_set" prod_tag)).1
    = item_count
        ({[ "z1" := [ {| rrName := "www"; rrType := "A" |} ] ]}
           : gmap string (list ResourceRecordSet)).
Proof.
  split; [apply fair_ascending |]. split; [reflexivity |].
  split; [vm_compute; reflexivity |].
  destruct (recordSetDNS_record_sets z1 proj "google_dns_record_set" prod_tag
              [ {| Name := "z1" |} ]
              {[ "z1" := [ {| rrName := "www"; rrType := "A" |} ] ]}
              (fair_ascending z1_reader) eq_refl)
    as (Hc & _ & _ & Hl).
  - vm_compute. reflexivity.
  - split; [exact Hc | exact Hl].
Defined.

(** X13: when the first stage succeeds and the listing of the record sets
    fails, [recordSetDNS] has made both calls and returns no handle, the
    managed zones it fetched and whatever the failed listing holds being
    dropped, and the error wrapped with "unable to list resources record se
    record sett from reader", a context that no failure of the first stage
    carries. *)
Theorem recordSetDNS_second_stage_failure rt g resourceType filters managedZones m e :
  reader rt ListManagedZones = (managedZones, None) ->
  reader rt (ListResourceRecordSets (Name <$> managedZones)) = (m, Some e) ->
  run rt (recordSetDNS g resourceType filters)
  = ([ListManagedZones; ListResourceRecordSets (Name <$> managedZones)],
     ([], Some (withMessage e
        "unable to list resources record se record sett from reader")))
  ∧ forall rt' e',
      (result_of rt' (managedZoneDNS g resourceType filters)).2 = Some e' ->
      exists e'',
        (result_of rt' (recordSetDNS g resourceType filters)).2 = Some e''
        ∧ context_of e''
          ≠ Some "unable to list resources record se record sett from reader".
Proof.
  intros H1 H2. split.
  - rewrite recordSetDNS_run, H1. cbv zeta.
    change (map Name managedZones) with (Name <$> managedZones).
    by rewrite H2.
  - intros rt' e'. unfold result_of.
    rewrite recordSetDNS_run, managedZoneDNS_run.
    destruct (reader rt' ListManagedZones) as [zs [e0|]]; simpl;
      intros He; [| discriminate He].
    eexists. split; [reflexivity |]. simpl. discriminate.
Qed.

Lemma recordSetDNS_second_stage_failure_witness :
  reader records_down ListManagedZones = ([ {| Name := "z1" |} ], None)
  ∧ reader records_down
      (ListResourceRecordSets (Name <$> [ {| Name := "z1" |} ]))
    = (∅, Some (Upstream "boom"))
  ∧ run records_down (recordSetDNS proj "google_dns_record_set" prod_tag)
    = ([ListManagedZones;
        ListResourceRecordSets (Name <$> [ {| Name := "z1" |} ])],
       ([], Some (withMessage (Upstream "boom")
          "unable to list resources record se record sett from reader"))).
Proof.
  split; [reflexivity |]. split; [reflexivity |].
  apply (recordSetDNS_second_stage_failure records_down proj
           "google_dns_record_set" prod_tag [ {| Name := "z1" |} ] ∅
           (Upstream "boom") eq_refl eq_refl).
Defined.

(** ** Failures and empty listings *)

(** X14: when a fetch function of the registry returns an error, it returns
    no handle, and the message of the error ends with the message of an
    error that one of its calls to the reader returned, after a context and
    a colon: the cause is kept and handed on, never replaced. *)
Theorem failure_keeps_cause t g resourceType filters rt e :
  (result_of rt (resources t g resourceType filters)).2 = Some e ->
  (result_of rt (resources t g resourceType filters)).1 = []
  ∧ exists c cause context,
      c ∈ calls_of rt (resources t g resourceType filters)
      ∧ resp_err c (reader rt c) = Some cause
      ∧ Error e = context +:+ ": " +:+ Error cause.
Proof.
  unfold calls_of, result_of.
  destruct t; simpl resources; run_zoned; unfold_fetch;
    repeat answer_of rt;
    intros He; try discriminate He; injection He as <-;
    (split; [done |]);
    first
      [ do 3 eexists; split; [apply list_elem_of_here |];
        split;
        [ match goal with E : reader rt _ = _ |- _ => by rewrite E end
        | reflexivity ]
      | do 3 eexists; split; [apply list_elem_of_further, list_elem_of_here |];
        split;
        [ match goal with E : reader rt _ = _ |- _ => by rewrite E end
        | reflexivity ]
      | eexists _, _,
          ("unable to previously fetch managed zones" +:+ ": "
           +:+ "unable to list DNS managed zone from reader");
        split; [apply list_elem_of_here |];
        split;
        [ match goal with E : reader rt _ = _ |- _ => by rewrite E end
        | simpl; by rewrite !append_assoc ] ].
Qed.

Lemma failure_keeps_cause_witness :
  (result_of zones_down
     (resources DNSRecordSet proj "google_dns_record_set" prod_tag)).2
  = Some (withMessage
            (withMessage (Upstream "boom")
               "unable to list DNS managed zone from reader")
            "unable to previously fetch managed zones")
  ∧ (result_of zones_down
       (resources DNSRecordSet proj "google_dns_record_set" prod_tag)).1 = [].
Proof.
  split; [reflexivity |].
  apply (failure_keeps_cause DNSRecordSet proj "google_dns_record_set" prod_tag
           zones_down
           (withMessage
              (withMessage (Upstream "boom")
                 "unable to list DNS managed zone from reader")
              "unable to previously fetch managed zones") eq_refl).
Defined.

(** X15: when the reader finds nothing and reports no error, every fetch
    function of the registry returns no handle and no error. *)
Theorem empty_listing_no_handles t g resourceType filters rt :
  fair rt ->
  (forall c, reader rt c = nothing c) ->
  result_of rt (resources t g resourceType filters) = ([], None).
Proof.
  intros Hf Hr.
  assert (forall V, order rt V ∅ = []) as Hempty.
  { intros V. apply Permutation_nil_r. by rewrite (Hf V ∅), map_to_list_empty. }
  unfold result_of.
  destruct t; simpl resources; run_zoned; unfold_fetch;
    rewrite ?Hr; simpl; rewrite ?Hr; simpl; rewrite ?Hempty; done.
Qed.

Lemma empty_listing_no_handles_witness :
  fair no_zones
  ∧ (forall c, reader no_zones c = nothing c)
  ∧ result_of no_zones
      (resources ComputeInstance proj "google_compute_instance" prod_tag)
    = ([], None).
Proof.
  split; [apply fair_ascending |]. split; [done |].
  apply (empty_listing_no_handles ComputeInstance proj
           "google_compute_instance" prod_tag no_zones
           (fair_ascending nothing) (fun c => eq_refl)).
Defined.
